(** * The [Action] client component and its [usePropsChangedKey] hook

    Shallow embedding of [src/app/action.js] and of the hook it imports from
    [@/app/hooks] (whose text is the one printed in the repository's
    documentation).  Both are React function components / hooks, so the
    embedding makes React's hook state explicit:

    - a [useState] slot is a field of the instance state; on the first
      render [useState(x)] calls [x] when it is a function and takes what it
      returns as the state, and takes [x] itself otherwise;
    - a [useEffect] with a dependency array stores that array at every
      commit; its callback runs after the first commit (mount) and after
      every later commit whose array is not equal to the stored one;
    - two dependency arrays are compared as React's reconciler does
      ([areHookInputsEqual]): position by position with [Object.is], over
      the positions both arrays have; a difference in size is only reported
      as a warning by development builds and does not make the arrays
      unequal;
    - effects run in the order the hooks are called, so the effect of
      [usePropsChangedKey] (called on line 12 of [action.js]) runs before
      the effect of [Action] (line 14);
    - one evaluation of the component (a "render pass") is a function from
      the props of that pass and the state before it to the element the pass
      returns and the state after its effects have run and their state
      updates have been applied.  The next pass reads that state; a pass
      that updated state is followed by a pass React schedules with the
      props of the time.

    The key counter is a JavaScript number that only ever holds small
    non-negative integers; it is modelled by [Z].  The [action] prop is a
    server action, an [async] function: calling it returns a promise. *)

From Stdlib Require Import ZArith List String Bool Lia.
Import ListNotations.
Open Scope string_scope.
Open Scope Z_scope.
Open Scope list_scope.

(** ** JavaScript values seen by the component *)

(** Primitives are compared by value; objects (plain objects, arrays,
    functions, React elements) live on the heap and are compared by the
    reference they were allocated at.  [VObj r fields] is a plain composite
    value at reference [r]; [VFun r] is a function at reference [r]. *)
#[warnings="-register-all"]
Inductive value : Type :=
| VUndefined
| VNull
| VBool (b : bool)
| VNum (n : Z)
| VStr (s : string)
| VObj (ref : nat) (fields : list (string * value))
| VFun (ref : nat).

(** [Object.is]: the comparison React applies to dependencies. *)
Definition Object_is (x y : value) : bool :=
  match x, y with
  | VUndefined, VUndefined => true
  | VNull, VNull => true
  | VBool a, VBool b => Bool.eqb a b
  | VNum a, VNum b => Z.eqb a b
  | VStr a, VStr b => String.eqb a b
  | VObj r _, VObj r' _ => Nat.eqb r r'
  | VFun r, VFun r' => Nat.eqb r r'
  | _, _ => false
  end.

(** A props object: its own enumerable properties in enumeration order. *)
Definition object := list (string * value).

Fixpoint get (name : string) (o : object) : option value :=
  match o with
  | [] => None
  | (k, v) :: o' => if String.eqb k name then Some v else get name o'
  end.

(** [Object.values(o)]. *)
Definition Object_values (o : object) : list value := map snd o.

(** ** React's dependency comparison *)

(** The loop of [areHookInputsEqual]:
    [for (i = 0; i < prevDeps.length && i < nextDeps.length; i++)
       if (!Object.is(nextDeps[i], prevDeps[i])) return false;
     return true]. *)
Fixpoint areHookInputsEqual (nextDeps prevDeps : list value) : bool :=
  match nextDeps, prevDeps with
  | n :: ns, p :: ps => if Object_is n p then areHookInputsEqual ns ps else false
  | _, _ => true
  end.

(** An effect runs on mount (no stored array) and whenever the new array is
    not equal to the stored one. *)
Definition effectFires (nextDeps : list value) (stored : option (list value)) : bool :=
  match stored with
  | None => true
  | Some prevDeps => negb (areHookInputsEqual nextDeps prevDeps)
  end.

(** The input lists of two passes hold the same values, position by
    position, as far as [Object.is] can tell. *)
Definition same_inputs (next prev : list value) : Prop :=
  Forall2 (fun x y => Object_is x y = true) next prev.

(** Number of evaluations in [rs] that see an input list the comparison
    tells apart from the list of the evaluation before ([prev] for the
    first). *)
Fixpoint observed_changes (prev : list value) (rs : list (list value)) : Z :=
  match rs with
  | [] => 0
  | a :: rs' => (if effectFires a (Some prev) then 1 else 0) + observed_changes a rs'
  end.

(** ** The hook [usePropsChangedKey] *)

Module Hook.

(** State the hook keeps in its component instance: the [useState(0)] slot
    and the dependency array stored by its [useEffect]. *)
Record state : Type := mk {
  propsChangedKey : Z;
  deps : option (list value)
}.

(** Before the first evaluation: [useState(0)], no stored dependencies. *)
Definition init : state := {| propsChangedKey := 0; deps := None |}.

(** One evaluation of [usePropsChangedKey(...args)]: returns the key this
    render reads, and the state after the effect
    [setPropsChangedKey((k) => k + 1)] (if it fires) has been applied. *)
Definition usePropsChangedKey (args : list value) (h : state) : Z * state :=
  let k := propsChangedKey h in
  (k, {| propsChangedKey := if effectFires args (deps h) then k + 1 else k;
         deps := Some args |}).

(** Successive evaluations, one per render pass. *)
Fixpoint evals (rs : list (list value)) (h : state) : state :=
  match rs with
  | [] => h
  | args :: rs' => evals rs' (snd (usePropsChangedKey args h))
  end.

End Hook.

(** ** The component [Action] *)

(** What [Action] returns and what it keeps in its [JSX] state. *)
Inductive node : Type :=
| Fragment (text : string)               (* [<>text</>] *)
| Given (v : value)                      (* a renderable value passed by the caller *)
| Suspense (fallback : node) (work : nat). (* [<Suspense fallback={..}>{promise}</Suspense>] *)

(** One producer invocation [action(props)]: the function called and the
    object passed.  The promise it returns is identified by the position of
    the invocation in the log. *)
Record call : Type := mkCall {
  callee : nat;
  bag : object
}.

(** State of one mounted [Action] instance. *)
Record fiber : Type := mkFiber {
  JSX : node;                 (* [useState(children)] *)
  hook : Hook.state;          (* state of [usePropsChangedKey] *)
  effectDeps : Z              (* [propsChangedKey] stored by the effect of line 14 *)
}.

(** The instance ([None] before its first render) and the log of producer
    invocations made so far. *)
Record world : Type := mkWorld {
  inst : option fiber;
  calls : list call
}.

Definition unmounted : world := {| inst := None; calls := [] |}.

(** A pass throws when [children] is a function that throws as [useState]
    calls it on the first render, and when the effect calls an [action] that
    is not a function. *)
Inductive outcome : Type :=
| Committed (w : world)
| Threw.

(** What a function passed by the caller does when it is called without
    arguments, by the reference of the function: [Some v] when it returns
    [v], [None] when it throws. *)
Class Initializers : Type := initialState : nat -> option value.

(** No function returns: every call throws. *)
Definition no_initializers : Initializers := fun _ => None.


(** The destructuring [{ action, children = <>loading...</>, ...props }]. *)
Definition action_of (P : object) : option value := get "action" P.

Definition children_of (P : object) : node :=
  match get "children" P with
  | None | Some VUndefined => Fragment "loading..."
  | Some v => Given v
  end.

Definition rest (P : object) : object :=
  filter (fun kv => negb (String.eqb (fst kv) "action")
                    && negb (String.eqb (fst kv) "children")) P.

(** [useState(children)] on the first render (line 11): a [children] that is
    a function is called as the state initializer, and the state is what it
    returns; [None] when that call throws. *)
Definition useState_initial {F : Initializers} (P : object) : option node :=
  match get "children" P with
  | Some (VFun r) => option_map Given (initialState r)
  | _ => Some (children_of P)
  end.

(** One render pass of [Action] with props object [P]: the element returned
    by the render (line 18), and the outcome of the effects that follow it.
    The effect of lines 14-16 has the dependency array [[propsChangedKey]];
    when it runs it calls [action(props)] and stores the wrapper with
    [setJSX].  A render that throws returns no element and runs no effect. *)
Definition Action {F : Initializers} (P : object) (w : world)
  : option node * outcome :=
  let action := action_of P in
  let children := children_of P in
  let props := rest P in
  match (match inst w with Some f => Some (JSX f) | None => useState_initial P end) with
  | None => (None, Threw)
  | Some jsx =>
      let h := match inst w with Some f => hook f | None => Hook.init end in
      let stored := match inst w with
                    | Some f => Some [VNum (effectDeps f)]
                    | None => None
                    end in
      let '(propsChangedKey, h') := Hook.usePropsChangedKey (Object_values props) h in
      (Some jsx,
       if effectFires [VNum propsChangedKey] stored then
         match action with
         | Some (VFun fn) =>
             Committed {| inst := Some {| JSX := Suspense children (List.length (calls w));
                                          hook := h';
                                          effectDeps := propsChangedKey |};
                          calls := calls w ++ [{| callee := fn; bag := props |}] |}
         | _ => Threw
         end
       else
         Committed {| inst := Some {| JSX := jsx; hook := h'; effectDeps := propsChangedKey |};
                      calls := calls w |})
  end.

(** Successive render passes, one props object per pass. *)
Fixpoint passes {F : Initializers} (Ps : list object) (w : world) : outcome :=
  match Ps with
  | [] => Committed w
  | P :: Ps' =>
      match snd (Action P w) with
      | Committed w' => passes Ps' w'
      | Threw => Threw
      end
  end.

(** ** What the rendering host shows *)

Inductive settlement : Type :=
| Pending
| Fulfilled (v : value)
| Rejected.

Inductive shown : Type :=
| Shows (n : node)
| Throws.                     (* left to an error boundary of the host *)

(** The host's suspension primitive: the fallback while the work is
    outstanding, its value once fulfilled.  [Shows n] is what the component
    hands to the host; how the host paints a value, or fails on one it
    cannot paint, is the host's part. *)
Definition display (st : nat -> settlement) (n : node) : shown :=
  match n with
  | Suspense fallback p =>
      match st p with
      | Pending => Shows fallback
      | Fulfilled v => Shows (Given v)
      | Rejected => Throws
      end
  | _ => Shows n
  end.

(** ** A caller: [<Action action={greeting} userId={userId} />] *)

Definition greeting : value := VFun 7%nat.

Definition client1 (userId : Z) : object :=
  [("action", greeting); ("userId", VNum userId)].

(** The instance of that caller with [userId = 1] once its first cycle is
    over: mount pass, then the pass React schedules for the state updates. *)
Definition mounted1 : world :=
  {| inst := Some {| JSX := Suspense (Fragment "loading...") 1;
                     hook := {| Hook.propsChangedKey := 1; Hook.deps := Some [VNum 1] |};
                     effectDeps := 1 |};
     calls := [ {| callee := 7; bag := [("userId", VNum 1)] |};
                {| callee := 7; bag := [("userId", VNum 1)] |} ] |}.

(** Along every run of one instance the producer has been invoked once for
    the mount and once for each key value above 0 that a render has read. *)
Definition counted (w : world) : Prop :=
  match inst w with
  | None => calls w = []
  | Some f =>
      Z.of_nat (List.length (calls w)) = effectDeps f + 1 /\
      effectDeps f <= Hook.propsChangedKey (hook f) <= effectDeps f + 1
  end.

(** ** Re-rendering until React has nothing left to do *)

(** The effects of a pass call a state setter when they run:
    [setPropsChangedKey((k) => k + 1)] always changes the key and
    [setJSX(<Suspense ..>)] always stores a new element, so React schedules
    another pass exactly when one of the two effects ran. *)
Definition schedules (P : object) (w : world) : bool :=
  let h := match inst w with Some f => hook f | None => Hook.init end in
  let stored := match inst w with Some f => Some [VNum (effectDeps f)] | None => None end in
  effectFires (Object_values (rest P)) (Hook.deps h)
  || effectFires [VNum (Hook.propsChangedKey h)] stored.

(** A render asked for by the caller with props [P], and the passes React
    schedules after it while the props stay [P].  [None]: out of fuel. *)
Fixpoint render {F : Initializers} (fuel : nat) (P : object) (w : world)
  : option outcome :=
  match fuel with
  | O => None
  | S fuel' =>
      match snd (Action P w) with
      | Threw => Some Threw
      | Committed w' =>
          if schedules P w then render fuel' P w' else Some (Committed w')
      end
  end.

(** The element a mounted instance holds wraps the promise of the last
    invocation in the log. *)
Definition wraps_latest (w : world) : Prop :=
  match inst w with
  | None => True
  | Some f => exists fb p, JSX f = Suspense fb p /\ List.length (calls w) = S p
  end.

(** ** The component as the documentation prints it

    The same component with the effect's dependency array written
    [[propsChangedKey, action]]. *)

Module Doc.

Record fiber : Type := mkFiber {
  JSX : node;
  hook : Hook.state;
  effectDeps : Z * value      (* [propsChangedKey] and [action] stored by the effect *)
}.

Record world : Type := mkWorld {
  inst : option fiber;
  calls : list call
}.

Definition unmounted : world := {| inst := None; calls := [] |}.

Inductive outcome : Type :=
| Committed (w : world)
| Threw.

(** The variable [action] after the destructuring: [undefined] when the
    props have no such property. *)
Definition action_value (P : object) : value :=
  match action_of P with
  | Some v => v
  | None => VUndefined
  end.

Definition Action {F : Initializers} (P : object) (w : world)
  : option node * outcome :=
  let action := action_value P in
  let children := children_of P in
  let props := rest P in
  match (match inst w with Some f => Some (JSX f) | None => useState_initial P end) with
  | None => (None, Threw)
  | Some jsx =>
      let h := match inst w with Some f => hook f | None => Hook.init end in
      let stored := match inst w with
                    | Some f => Some [VNum (fst (effectDeps f)); snd (effectDeps f)]
                    | None => None
                    end in
      let '(propsChangedKey, h') := Hook.usePropsChangedKey (Object_values props) h in
      (Some jsx,
       if effectFires [VNum propsChangedKey; action] stored then
         match action with
         | VFun fn =>
             Committed {| inst := Some {| JSX := Suspense children (List.length (calls w));
                                          hook := h';
                                          effectDeps := (propsChangedKey, action) |};
                          calls := calls w ++ [{| callee := fn; bag := props |}] |}
         | _ => Threw
         end
       else
         Committed {| inst := Some {| JSX := jsx; hook := h';
                                      effectDeps := (propsChangedKey, action) |};
                      calls := calls w |})
  end.

Fixpoint passes {F : Initializers} (Ps : list object) (w : world) : outcome :=
  match Ps with
  | [] => Committed w
  | P :: Ps' =>
      match snd (Action P w) with
      | Committed w' => passes Ps' w'
      | Threw => Threw
      end
  end.

End Doc.

(** What the state of the documented component has in common with the
    state of [src/app/action.js]: everything but the stored [action]. *)
Definition forget (w : Doc.world) : world :=
  {| inst := match Doc.inst w with
             | Some f => Some {| JSX := Doc.JSX f; hook := Doc.hook f;
                                 effectDeps := fst (Doc.effectDeps f) |}
             | None => None
             end;
     calls := Doc.calls w |}.

Definition forget_outcome (o : Doc.outcome) : outcome :=
  match o with
  | Doc.Committed w => Committed (forget w)
  | Doc.Threw => Threw
  end.

(** The stored [action] of a mounted documented instance is the producer
    [a] every render has brought so far. *)
Definition holds_producer (a : value) (wd : Doc.world) : Prop :=
  match Doc.inst wd with
  | Some fd => Object_is (snd (Doc.effectDeps fd)) a = true
  | None => True
  end.

(** ** The documented server action and the components it returns *)

Module Components.

(** [<>hello {username}</>]. *)
Definition Greeting (username : string) : node :=
  Fragment ("hello " ++ username).

(** [<>Something went wrong: {errorMessage}</>]. *)
Definition MyError (errorMessage : string) : node :=
  Fragment ("Something went wrong: " ++ errorMessage).

End Components.

Module Actions.

Record user : Type := mkUser {
  id : Z;
  username : string
}.

Definition users : list user :=
  [ {| id := 1; username := "roggc" |};
    {| id := 2; username := "roger" |} ].

(** [u.id === userId] for the number [u.id]. *)
Definition strict_equals (n : Z) (v : value) : bool :=
  match v with
  | VNum m => Z.eqb n m
  | _ => false
  end.

(** The promise awaited inside the [try]: the timer callback calls [r] with
    the name of the user it finds and does nothing when it finds none; the
    executor has no way to reject. *)
Inductive awaited : Type :=
| Resolves (v : string)
| Fails (message : string)
| Never.

Definition username_promise (userId : value) : awaited :=
  match find (fun u => strict_equals (id u) userId) users with
  | Some user => Resolves (username user)
  | None => Never
  end.

(** The element the server action settles with. *)
Inductive element : Type :=
| GreetingEl (username : string)        (* [<Greeting username={username} />] *)
| MyErrorEl (errorMessage : string).    (* [<MyError errorMessage={error.message} />] *)

(** [greeting({ userId })]: the element its promise is fulfilled with, [None]
    when the promise stays pending for ever. *)
Definition greeting (props : object) : option element :=
  let userId := match get "userId" props with Some v => v | None => VUndefined end in
  match username_promise userId with
  | Resolves username => Some (GreetingEl username)
  | Fails message => Some (MyErrorEl message)
  | Never => None
  end.

(** What the host paints for such an element. *)
Definition paint (e : element) : node :=
  match e with
  | GreetingEl username => Components.Greeting username
  | MyErrorEl errorMessage => Components.MyError errorMessage
  end.

End Actions.

(** ** The documented caller [Client1] *)

Module Client1.

(** [useState(1)] and the [Action] instance rendered below it. *)
Record state : Type := mk {
  userId : Z;
  child : world
}.

(** A render of [Client1] renders [<Action action={greeting} userId={userId} />]
    and lets React finish the passes this schedules. *)
Definition renders {F : Initializers} (userId : Z) (w : world) : option state :=
  match render 3 (client1 userId) w with
  | Some (Committed w') => Some {| userId := userId; child := w' |}
  | _ => None
  end.

Definition mount {F : Initializers} : option state := renders 1 unmounted.

(** [onClick]: [setUserId(2)].  React leaves the component alone when the
    new state is [Object.is]-equal to the current one. *)
Definition onClick {F : Initializers} (s : state) : option state :=
  if Z.eqb 2 (userId s) then Some s else renders 2 (child s).

Fixpoint clicks {F : Initializers} (n : nat) (s : state) : option state :=
  match n with
  | O => Some s
  | S n' =>
      match onClick s with
      | Some s' => clicks n' s'
      | None => None
      end
  end.

End Client1.

(** * Properties *)

Section Properties.

Context {fns : Initializers}.

(** ** [Object.is] and the dependency comparison *)

Lemma Object_is_refl (v : value) : Object_is v v = true.
Proof.
  destruct v; simpl; auto using Z.eqb_refl, String.eqb_refl, Nat.eqb_refl.
  now destruct b.
Qed.

Lemma Object_is_sym (x y : value) : Object_is x y = Object_is y x.
Proof.
  destruct x, y; simpl; auto using Z.eqb_sym, String.eqb_sym, Nat.eqb_sym.
  now destruct b, b0.
Qed.

Lemma Object_is_trans (x y z : value) :
  Object_is x y = true -> Object_is y z = true -> Object_is x z = true.
Proof.
  destruct x, y; simpl; try discriminate; destruct z; simpl; try discriminate; auto.
  - destruct b, b0, b1; simpl; auto.
  - rewrite !Z.eqb_eq; congruence.
  - rewrite !String.eqb_eq; congruence.
  - rewrite !Nat.eqb_eq; congruence.
  - rewrite !Nat.eqb_eq; congruence.
Qed.

Lemma same_inputs_refl (l : list value) : same_inputs l l.
Proof. induction l; constructor; auto using Object_is_refl. Qed.

Lemma same_inputs_sym (a b : list value) : same_inputs a b -> same_inputs b a.
Proof.
  induction 1; constructor; auto. now rewrite Object_is_sym.
Qed.

Lemma same_inputs_trans (a b c : list value) :
  same_inputs a b -> same_inputs b c -> same_inputs a c.
Proof.
  intros Hab; revert c.
  induction Hab as [|x y a b Hxy _ IH]; intros c Hbc; inversion Hbc; subst;
    constructor.
  - eapply Object_is_trans; eassumption.
  - now apply IH.
Qed.

Lemma same_inputs_equal (next prev : list value) :
  same_inputs next prev -> areHookInputsEqual next prev = true.
Proof.
  induction 1 as [|x y n p Hxy _ IH]; simpl; auto. now rewrite Hxy.
Qed.

Lemma areHookInputsEqual_refl (l : list value) : areHookInputsEqual l l = true.
Proof. apply same_inputs_equal, same_inputs_refl. Qed.

(** The comparison fails exactly when some position that both arrays have
    holds two values that [Object.is] tells apart. *)
Lemma areHookInputsEqual_false_iff (next prev : list value) :
  areHookInputsEqual next prev = false <->
  exists i x y, nth_error next i = Some x /\ nth_error prev i = Some y /\
                Object_is x y = false.
Proof.
  revert prev; induction next as [|n ns IH]; intros [|p ps]; simpl.
  - split; [discriminate | intros (i & x & y & H & _); now destruct i].
  - split; [discriminate | intros (i & x & y & H & _); now destruct i].
  - split; [discriminate | intros (i & x & y & _ & H & _); now destruct i].
  - destruct (Object_is n p) eqn:E.
    + rewrite IH. split.
      * intros (i & x & y & H1 & H2 & H3). now exists (S i), x, y.
      * intros ([|i] & x & y & H1 & H2 & H3); simpl in *.
        -- congruence.
        -- now exists i, x, y.
    + split; auto. intros _. now exists 0%nat, n, p.
Qed.

Lemma effectFires_iff (next prev : list value) :
  effectFires next (Some prev) = true <->
  exists i x y, nth_error next i = Some x /\ nth_error prev i = Some y /\
                Object_is x y = false.
Proof.
  unfold effectFires. rewrite negb_true_iff. apply areHookInputsEqual_false_iff.
Qed.

Lemma effectFires_key (k d : Z) :
  effectFires [VNum k] (Some [VNum d]) = negb (k =? d).
Proof. unfold effectFires; simpl. now destruct (k =? d). Qed.

(** ** The hook: how the key moves *)

Lemma key_step (args : list value) (h : Hook.state) :
  Hook.propsChangedKey (snd (Hook.usePropsChangedKey args h)) =
  Hook.propsChangedKey h + (if effectFires args (Hook.deps h) then 1 else 0).
Proof.
  unfold Hook.usePropsChangedKey; simpl.
  destruct (effectFires args (Hook.deps h)); lia.
Qed.

Lemma deps_step (args : list value) (h : Hook.state) :
  Hook.deps (snd (Hook.usePropsChangedKey args h)) = Some args.
Proof. reflexivity. Qed.

Lemma key_monotone (rs : list (list value)) (h : Hook.state) :
  Hook.propsChangedKey h <= Hook.propsChangedKey (Hook.evals rs h).
Proof.
  revert h; induction rs as [|a rs IH]; intros h; cbn [Hook.evals]; [lia|].
  specialize (IH (snd (Hook.usePropsChangedKey a h))).
  rewrite key_step in IH.
  destruct (effectFires a (Hook.deps h)); lia.
Qed.

Lemma key_counts_changes (rs : list (list value)) (h : Hook.state) (prev : list value) :
  Hook.deps h = Some prev ->
  Hook.propsChangedKey (Hook.evals rs h) = Hook.propsChangedKey h + observed_changes prev rs.
Proof.
  revert h prev; induction rs as [|a rs IH]; intros h prev Hd;
    cbn [Hook.evals observed_changes]; [lia|].
  rewrite (IH _ a (deps_step a h)), key_step, Hd. lia.
Qed.

Lemma observed_changes_repeat (args : list value) (n : nat) :
  observed_changes args (repeat args n) = 0.
Proof.
  induction n as [|n IH]; cbn [repeat observed_changes effectFires]; auto.
  now rewrite areHookInputsEqual_refl, IH.
Qed.

Lemma evals_app (rs rs' : list (list value)) (h : Hook.state) :
  Hook.evals (rs ++ rs') h = Hook.evals rs' (Hook.evals rs h).
Proof.
  revert h; induction rs as [|a rs IH]; intros h; cbn [Hook.evals app]; auto.
Qed.

Lemma last_nonempty {A : Type} (x : A) (l : list A) (d d' : A) :
  last (x :: l) d = last (x :: l) d'.
Proof.
  revert x; induction l as [|y l IH]; intros x; [reflexivity|].
  change (last (y :: l) d = last (y :: l) d'). apply IH.
Qed.

Lemma deps_evals (rs : list (list value)) (h : Hook.state) (prev : list value) :
  Hook.deps h = Some prev -> Hook.deps (Hook.evals rs h) = Some (last rs prev).
Proof.
  revert h prev; induction rs as [|a rs IH]; intros h prev Hd; cbn [Hook.evals]; auto.
  rewrite (IH _ a (deps_step a h)). f_equal.
  destruct rs as [|b rs]; [reflexivity|].
  change (last (b :: rs) a = last (b :: rs) prev). apply last_nonempty.
Qed.

(** C3, as stated, fails: the effect of the hook runs after the first render
    too, so the key read by the second render of every instance is 1. *)
Lemma key_is_one_after_first_evaluation :
  Hook.propsChangedKey Hook.init = 0 /\
  Hook.propsChangedKey (snd (Hook.usePropsChangedKey [VNum 1] Hook.init)) = 1 /\
  Hook.propsChangedKey (snd (Hook.usePropsChangedKey [VNum 1] Hook.init)) <> 0.
Proof. repeat split; discriminate. Qed.

(** C3, amended: the key is created at 0 and the first render reads 0; the
    first effect pass increments it, so the key is 1 after the first
    render-and-effect cycle, stays 1 through every later evaluation [rs]
    that observes no change, and becomes 2 at the first observed change. *)
Theorem key_after_first_cycle (args : list value) (rs : list (list value)) :
  observed_changes args rs = 0 ->
  let h1 := snd (Hook.usePropsChangedKey args Hook.init) in
  Hook.propsChangedKey Hook.init = 0 /\
  fst (Hook.usePropsChangedKey args Hook.init) = 0 /\
  Hook.propsChangedKey h1 = 1 /\
  Hook.propsChangedKey (Hook.evals rs h1) = 1 /\
  forall next,
    Hook.propsChangedKey (Hook.evals (rs ++ [next]) h1) =
    if effectFires next (Some (last rs args)) then 2 else 1.
Proof.
  intros Hq h1.
  assert (H1 : Hook.propsChangedKey h1 = 1) by reflexivity.
  assert (Hrs : Hook.propsChangedKey (Hook.evals rs h1) = 1).
  { rewrite (key_counts_changes rs h1 args (deps_step _ _)). lia. }
  repeat split; auto.
  intros next. rewrite evals_app. cbn [Hook.evals].
  rewrite key_step, Hrs, (deps_evals rs h1 args (deps_step _ _)).
  now destruct (effectFires next (Some (last rs args))).
Qed.

Lemma key_after_first_cycle_witness :
  observed_changes [VNum 1] [[VNum 1]; [VNum 1]] = 0 /\
  Hook.propsChangedKey
    (Hook.evals [[VNum 1]; [VNum 1]] (snd (Hook.usePropsChangedKey [VNum 1] Hook.init))) = 1.
Proof.
  split; [reflexivity|].
  apply (key_after_first_cycle [VNum 1] [[VNum 1]; [VNum 1]]). reflexivity.
Defined.

(** C4, as stated, fails in two places: the first cycle raises the key
    although no input set precedes it, and a cycle whose input list only
    grew (or shrank) leaves the key alone. *)
Lemma key_moves_on_mount_and_misses_length_change :
  (Hook.deps Hook.init = None /\
   Hook.propsChangedKey (snd (Hook.usePropsChangedKey [VNum 1] Hook.init)) =
   Hook.propsChangedKey Hook.init + 1) /\
  (let h1 := snd (Hook.usePropsChangedKey [VNum 1] Hook.init) in
   Hook.deps h1 = Some [VNum 1] /\
   List.length [VNum 1; VNum 2] <> List.length [VNum 1] /\
   Hook.propsChangedKey (snd (Hook.usePropsChangedKey [VNum 1; VNum 2] h1)) =
   Hook.propsChangedKey h1).
Proof. repeat split; discriminate. Qed.

(** C4, amended: the version key of one instance never decreases or resets;
    each render cycle raises it by exactly 1 when the cycle is the first one
    or some value differs ([Object.is]) from the value the previous cycle
    had at the same position, and by 0 otherwise; the render of the cycle
    itself still reads the old key, the next render reads the new one. *)
Theorem key_increment (args : list value) (h : Hook.state) (rs : list (list value)) :
  let h' := snd (Hook.usePropsChangedKey args h) in
  (Hook.propsChangedKey h' = Hook.propsChangedKey h + 1 <->
   Hook.deps h = None \/
   exists prev i x y, Hook.deps h = Some prev /\ nth_error args i = Some x /\
                      nth_error prev i = Some y /\ Object_is x y = false) /\
  (Hook.propsChangedKey h' = Hook.propsChangedKey h \/
   Hook.propsChangedKey h' = Hook.propsChangedKey h + 1) /\
  fst (Hook.usePropsChangedKey args h) = Hook.propsChangedKey h /\
  (forall args', fst (Hook.usePropsChangedKey args' h') = Hook.propsChangedKey h') /\
  Hook.propsChangedKey h <= Hook.propsChangedKey (Hook.evals rs h).
Proof.
  intros h'.
  assert (Hk : Hook.propsChangedKey h' =
               Hook.propsChangedKey h + (if effectFires args (Hook.deps h) then 1 else 0))
    by apply key_step.
  split; [split | split; [ | split; [ | split]]].
  - rewrite Hk. destruct (Hook.deps h) as [prev|] eqn:Hd; [|now left].
    destruct (effectFires args (Some prev)) eqn:E; [|lia].
    intros _. right. apply effectFires_iff in E.
    destruct E as (i & x & y & E). now exists prev, i, x, y.
  - rewrite Hk.
    intros [Hd | (prev & i & x & y & Hd & E)]; rewrite Hd; [reflexivity|].
    assert (F : effectFires args (Some prev) = true)
      by (apply effectFires_iff; now exists i, x, y).
    now rewrite F.
  - rewrite Hk. destruct (effectFires args (Hook.deps h)); lia.
  - reflexivity.
  - reflexivity.
  - apply key_monotone.
Qed.

(** C7, as stated, fails: a list that only gained or lost trailing elements
    is not told apart from the previous one, and the key does not move. *)
Lemma length_change_alone_is_not_recorded :
  let h1 := snd (Hook.usePropsChangedKey [VNum 1] Hook.init) in
  let h2 := snd (Hook.usePropsChangedKey [VNum 1; VNum 2] h1) in
  let h3 := snd (Hook.usePropsChangedKey [VNum 1] h2) in
  List.length [VNum 1; VNum 2] <> List.length [VNum 1] /\
  effectFires [VNum 1; VNum 2] (Hook.deps h1) = false /\
  Hook.propsChangedKey h2 = Hook.propsChangedKey h1 /\
  effectFires [VNum 1] (Hook.deps h2) = false /\
  Hook.propsChangedKey h3 = Hook.propsChangedKey h2.
Proof. repeat split; discriminate. Qed.

(** C8: the increment is two-phase.  The render pass that detects the
    change still reads the old key; the pass after it reads the key plus
    one; and however many more times the detection runs on the same inputs,
    the key stays at that one increment. *)
Theorem increment_is_published_by_the_next_pass
    (args prev : list value) (h : Hook.state) (n : nat) :
  Hook.deps h = Some prev ->
  effectFires args (Some prev) = true ->
  let h' := snd (Hook.usePropsChangedKey args h) in
  fst (Hook.usePropsChangedKey args h) = Hook.propsChangedKey h /\
  (forall args', fst (Hook.usePropsChangedKey args' h') = Hook.propsChangedKey h + 1) /\
  Hook.propsChangedKey (Hook.evals (repeat args n) h') = Hook.propsChangedKey h + 1 /\
  fst (Hook.usePropsChangedKey args (Hook.evals (repeat args n) h')) =
  Hook.propsChangedKey h + 1.
Proof.
  intros Hd Hf h'.
  assert (H' : Hook.propsChangedKey h' = Hook.propsChangedKey h + 1).
  { subst h'. now rewrite key_step, Hd, Hf. }
  assert (Hn : Hook.propsChangedKey (Hook.evals (repeat args n) h') =
               Hook.propsChangedKey h + 1).
  { rewrite (key_counts_changes _ h' args (deps_step _ _)).
    rewrite observed_changes_repeat. lia. }
  repeat split; auto.
Qed.

Lemma increment_is_published_by_the_next_pass_witness :
  let h := snd (Hook.usePropsChangedKey [VNum 1] Hook.init) in
  fst (Hook.usePropsChangedKey [VNum 2] h) = 1 /\
  fst (Hook.usePropsChangedKey [VNum 2] (snd (Hook.usePropsChangedKey [VNum 2] h))) = 2.
Proof.
  intros h.
  destruct (increment_is_published_by_the_next_pass
              [VNum 2] [VNum 1] h 3 eq_refl eq_refl) as (H1 & H2 & _).
  split; [exact H1 | exact (H2 [VNum 2])].
Defined.

(** ** The component: what one render pass does *)

Lemma mounted1_reached :
  passes [client1 1; client1 1] unmounted = Committed mounted1.
Proof. reflexivity. Qed.

Lemma rest_spec (P : object) (k : string) (v : value) :
  In (k, v) (rest P) <-> In (k, v) P /\ k <> "action" /\ k <> "children".
Proof.
  unfold rest. rewrite filter_In. cbn [fst].
  rewrite andb_true_iff, !negb_true_iff, !String.eqb_neq. tauto.
Qed.

(** A pass of a mounted instance that reads the key its effect already saw:
    the effect of [Action] does not run. *)
Lemma Action_steady (P : object) (w : world) (f : fiber) :
  inst w = Some f ->
  effectDeps f = Hook.propsChangedKey (hook f) ->
  Action P w =
  (Some (JSX f),
   Committed {| inst := Some {| JSX := JSX f;
                                hook := snd (Hook.usePropsChangedKey
                                               (Object_values (rest P)) (hook f));
                                effectDeps := Hook.propsChangedKey (hook f) |};
                calls := calls w |}).
Proof.
  intros Hi He. unfold Action. rewrite Hi. cbn [Hook.usePropsChangedKey].
  rewrite effectFires_key, He, Z.eqb_refl. reflexivity.
Qed.

(** A pass of a mounted instance that reads a key its effect has not seen:
    the effect runs, calls [action(props)] and stores the wrapper. *)
Lemma Action_advance (P : object) (w : world) (f : fiber) (fn : nat) :
  inst w = Some f ->
  effectDeps f <> Hook.propsChangedKey (hook f) ->
  action_of P = Some (VFun fn) ->
  Action P w =
  (Some (JSX f),
   Committed {| inst := Some {| JSX := Suspense (children_of P) (List.length (calls w));
                                hook := snd (Hook.usePropsChangedKey
                                               (Object_values (rest P)) (hook f));
                                effectDeps := Hook.propsChangedKey (hook f) |};
                calls := calls w ++ [{| callee := fn; bag := rest P |}] |}).
Proof.
  intros Hi He Ha. unfold Action. rewrite Hi, Ha. cbn [Hook.usePropsChangedKey].
  rewrite effectFires_key.
  destruct (Z.eqb_spec (Hook.propsChangedKey (hook f)) (effectDeps f)) as [E|E];
    [congruence | reflexivity].
Qed.

(** Passes of a settled instance whose inputs are the ones it already has
    change nothing but the stored dependency array. *)
Lemma passes_steady (Ps : list object) (w : world) (f : fiber) (prev : list value) :
  inst w = Some f ->
  effectDeps f = Hook.propsChangedKey (hook f) ->
  Hook.deps (hook f) = Some prev ->
  Forall (fun P => same_inputs (Object_values (rest P)) prev) Ps ->
  exists f',
    passes Ps w = Committed {| inst := Some f'; calls := calls w |} /\
    JSX f' = JSX f /\
    Hook.propsChangedKey (hook f') = Hook.propsChangedKey (hook f) /\
    effectDeps f' = effectDeps f /\
    exists prev', Hook.deps (hook f') = Some prev' /\ same_inputs prev' prev.
Proof.
  revert w f prev; induction Ps as [|P Ps IH]; intros w f prev Hi He Hd HPs.
  - exists f. cbn [passes]. destruct w as [i c]; cbn in *; subst i.
    repeat split; auto. exists prev; auto using same_inputs_refl.
  - inversion HPs as [|P' Ps' HP HPs']; subst.
    cbn [passes]. rewrite (Action_steady P w f Hi He). cbn [snd].
    set (f1 := {| JSX := JSX f;
                  hook := snd (Hook.usePropsChangedKey (Object_values (rest P)) (hook f));
                  effectDeps := Hook.propsChangedKey (hook f) |}).
    assert (Hk : Hook.propsChangedKey (hook f1) = Hook.propsChangedKey (hook f)).
    { subst f1; cbn [hook]. rewrite key_step, Hd.
      unfold effectFires. rewrite (same_inputs_equal _ _ HP). cbn [negb]. lia. }
    destruct (IH {| inst := Some f1; calls := calls w |} f1 (Object_values (rest P)))
      as (f' & Hp & HJ & HK & HE & prev' & HD & HS); auto.
    { eapply Forall_impl; [|exact HPs'].
      intros Q HQ. eapply same_inputs_trans; [exact HQ|].
      now apply same_inputs_sym. }
    exists f'. cbn [calls] in Hp. rewrite Hp.
    repeat split; auto; try congruence.
    + rewrite HE. subst f1; cbn [effectDeps]. congruence.
    + exists prev'. split; auto. eapply same_inputs_trans; eassumption.
Qed.

(** Whatever a pass does, it leaves the hook evaluated once more and the
    effect of [Action] holding the key that pass read. *)
Lemma Action_commits (P : object) (w w' : world) :
  snd (Action P w) = Committed w' ->
  exists f',
    inst w' = Some f' /\
    hook f' = snd (Hook.usePropsChangedKey (Object_values (rest P))
                     (match inst w with Some f => hook f | None => Hook.init end)) /\
    effectDeps f' =
    Hook.propsChangedKey (match inst w with Some f => hook f | None => Hook.init end).
Proof.
  unfold Action.
  destruct (match inst w with Some f => Some (JSX f) | None => useState_initial P end)
    as [jsx|]; [|discriminate].
  cbn [Hook.usePropsChangedKey snd].
  destruct (effectFires [VNum _] _).
  - destruct (action_of P) as [[]|]; try discriminate.
    intros [= <-]. eexists. cbn [inst hook effectDeps]. repeat split.
  - intros [= <-]. eexists. cbn [inst hook effectDeps]. repeat split.
Qed.

(** A render cycle: the pass the caller asks for and the pass React
    schedules for the state updates of the first.  After it the instance
    has caught up with its key and holds the inputs of that cycle. *)
Lemma cycle_settles (P : object) (w0 w : world) :
  passes [P; P] w0 = Committed w ->
  exists f,
    inst w = Some f /\
    effectDeps f = Hook.propsChangedKey (hook f) /\
    Hook.deps (hook f) = Some (Object_values (rest P)).
Proof.
  cbn [passes].
  destruct (snd (Action P w0)) as [w1|] eqn:E1; [|discriminate].
  destruct (snd (Action P w1)) as [w2|] eqn:E2; [|discriminate].
  intros [= <-].
  destruct (Action_commits _ _ _ E1) as (f1 & Hi1 & Hh1 & _).
  destruct (Action_commits _ _ _ E2) as (f2 & Hi2 & Hh2 & He2).
  rewrite Hi1 in Hh2, He2.
  exists f2. split; [exact Hi2|]. rewrite Hh2, He2, key_step, deps_step.
  split; [|reflexivity].
  rewrite Hh1, deps_step. cbn [effectFires].
  rewrite areHookInputsEqual_refl. cbn [negb]. lia.
Qed.

Lemma Action_counted (P : object) (w w' : world) :
  counted w -> snd (Action P w) = Committed w' -> counted w'.
Proof.
  unfold counted, Action. destruct (inst w) as [f|];
    [| destruct (useState_initial P) as [jsx0|]; [|discriminate] ].
  - intros (Hl & Hk). cbn [Hook.usePropsChangedKey]. rewrite effectFires_key.
    destruct (Z.eqb_spec (Hook.propsChangedKey (hook f)) (effectDeps f)) as [E|E];
      cbn [negb snd].
    + intros [= <-]. cbn [inst calls effectDeps hook Hook.propsChangedKey].
      destruct (effectFires _ _); lia.
    + destruct (action_of P) as [[]|]; try discriminate.
      intros [= <-]. cbn [inst calls effectDeps hook Hook.propsChangedKey].
      rewrite length_app. cbn [List.length].
      destruct (effectFires _ _); lia.
  - intros Hc. cbn [Hook.usePropsChangedKey effectFires snd].
    destruct (action_of P) as [[]|]; try discriminate.
    intros [= <-]. cbn [inst calls effectDeps hook Hook.propsChangedKey Hook.init].
    rewrite Hc. cbn. lia.
Qed.

Lemma passes_counted (Ps : list object) (w w' : world) :
  counted w -> passes Ps w = Committed w' -> counted w'.
Proof.
  revert w; induction Ps as [|P Ps IH]; intros w Hc; cbn [passes].
  - now intros [= <-].
  - destruct (snd (Action P w)) as [w1|] eqn:E; [|discriminate].
    apply IH. eapply Action_counted; eassumption.
Qed.

(** ** The component: invocations and displayed content *)

(** C1: in the render pass that reads an advanced version key (a key the
    effect of [Action] has not seen yet), the producer is invoked exactly
    once, with the props object of that pass without [action] and
    [children], entries and order untouched; the advance is then consumed. *)
Theorem one_invocation_per_advance (P : object) (w : world) (f : fiber) (fn : nat) :
  inst w = Some f ->
  effectDeps f < Hook.propsChangedKey (hook f) ->
  action_of P = Some (VFun fn) ->
  exists f',
    snd (Action P w) =
    Committed {| inst := Some f';
                 calls := calls w ++ [{| callee := fn; bag := rest P |}] |} /\
    effectDeps f' = Hook.propsChangedKey (hook f) /\
    (forall k v, In (k, v) (rest P) <-> In (k, v) P /\ k <> "action" /\ k <> "children").
Proof.
  intros Hi He Ha.
  rewrite (Action_advance P w f fn Hi (Z.lt_neq _ _ He) Ha). cbn [snd].
  eexists; split; [reflexivity|]. cbn [effectDeps].
  split; [reflexivity | apply rest_spec].
Qed.

(** C2: once a render cycle with some props is over, re-rendering the
    instance any number of times with inputs that are unchanged position by
    position and the same producer reference makes no producer invocation,
    and leaves the displayed content and the version key as they are. *)
Theorem unchanged_rerender_makes_no_invocation
    (P : object) (Qs : list object) (w0 w : world) :
  passes [P; P] w0 = Committed w ->
  Forall (fun Q => same_inputs (Object_values (rest Q)) (Object_values (rest P)) /\
                   action_of Q = action_of P) Qs ->
  exists f f',
    inst w = Some f /\
    passes Qs w = Committed {| inst := Some f'; calls := calls w |} /\
    JSX f' = JSX f /\
    Hook.propsChangedKey (hook f') = Hook.propsChangedKey (hook f).
Proof.
  intros Hc HQs.
  destruct (cycle_settles P w0 w Hc) as (f & Hi & He & Hd).
  destruct (passes_steady Qs w f _ Hi He Hd) as (f' & Hp & HJ & HK & _).
  { eapply Forall_impl; [|exact HQs]. now intros Q [HQ _]. }
  exists f, f'. repeat split; auto.
Qed.

Lemma Action_keeps_or_invokes (P : object) (w w' : world) (f : fiber) :
  inst w = Some f ->
  snd (Action P w) = Committed w' ->
  exists f',
    inst w' = Some f' /\
    ((calls w' = calls w /\ JSX f' = JSX f) \/
     (JSX f' = Suspense (children_of P) (List.length (calls w)) /\
      List.length (calls w') = S (List.length (calls w)))).
Proof.
  intros Hi. unfold Action. rewrite Hi. cbn [Hook.usePropsChangedKey snd].
  destruct (effectFires [VNum _] _).
  - destruct (action_of P) as [[]|]; try discriminate.
    intros [= <-]. eexists. split; [reflexivity|]. right. cbn [JSX calls].
    split; [reflexivity|]. rewrite length_app. cbn [List.length]. lia.
  - intros [= <-]. eexists. split; [reflexivity|]. left. now split.
Qed.

Lemma passes_keeps_or_supersedes (Qs : list object) (w w' : world) (f : fiber) :
  inst w = Some f ->
  passes Qs w = Committed w' ->
  exists f',
    inst w' = Some f' /\
    ((calls w' = calls w /\ JSX f' = JSX f) \/
     (exists fb p, JSX f' = Suspense fb p /\
                   (List.length (calls w) <= p)%nat /\
                   List.length (calls w') = S p)).
Proof.
  revert w f; induction Qs as [|Q Qs IH]; intros w f Hi; cbn [passes].
  - intros [= <-]. exists f. split; [exact Hi|]. left. now split.
  - destruct (snd (Action Q w)) as [w1|] eqn:E; [|discriminate].
    intros Hp.
    destruct (Action_keeps_or_invokes Q w w1 f Hi E) as (f1 & Hi1 & H1).
    destruct (IH w1 f1 Hi1 Hp) as (f' & Hi' & H').
    exists f'. split; [exact Hi'|].
    destruct H1 as [(Hc1 & HJ1) | (HJ1 & Hl1)], H' as [(Hc' & HJ') | (fb & p & HJ' & Hle & Hl')].
    + left. split; congruence.
    + right. exists fb, p. repeat split; auto. now rewrite <- Hc1.
    + right. eexists; eexists. split; [rewrite HJ'; exact HJ1|].
      split; [lia | congruence].
    + right. exists fb, p. repeat split; auto. lia.
Qed.

(** C5, amended: a render pass that invokes the producer stores the
    suspension wrapper of that invocation, with the [children] of that pass
    as fallback (the fragment [loading...] when the caller passed none).  As
    long as no later invocation is made, the instance displays that wrapper:
    the fallback while the invocation is pending, its result once it is
    fulfilled.  Once a later invocation has been made, what is displayed no
    longer depends on the earlier one: its result is not shown. *)
Theorem invocation_is_displayed_through_suspense (P : object) (w w' : world) :
  snd (Action P w) = Committed w' ->
  calls w' <> calls w ->
  exists f' fn fb,
    action_of P = Some (VFun fn) /\
    calls w' = calls w ++ [{| callee := fn; bag := rest P |}] /\
    nth_error (calls w') (List.length (calls w)) = Some {| callee := fn; bag := rest P |} /\
    inst w' = Some f' /\
    JSX f' = Suspense fb (List.length (calls w)) /\
    (get "children" P = None \/ get "children" P = Some VUndefined ->
     fb = Fragment "loading...") /\
    (forall v, get "children" P = Some v -> v <> VUndefined -> fb = Given v) /\
    forall Qs w'',
      passes Qs w' = Committed w'' ->
      exists f'',
        inst w'' = Some f'' /\
        (calls w'' = calls w' ->
         forall st : nat -> settlement,
           (st (List.length (calls w)) = Pending ->
            display st (JSX f'') = Shows fb) /\
           (forall v, st (List.length (calls w)) = Fulfilled v ->
                      display st (JSX f'') = Shows (Given v))) /\
        (calls w'' <> calls w' ->
         forall st st' : nat -> settlement,
           (forall q, q <> List.length (calls w) -> st q = st' q) ->
           display st (JSX f'') = display st' (JSX f'')).
Proof.
  unfold Action.
  destruct (match inst w with Some f => Some (JSX f) | None => useState_initial P end)
    as [jsx|]; [|discriminate].
  cbn [Hook.usePropsChangedKey snd].
  destruct (effectFires _ _); [|intros [= <-]; cbn [calls]; congruence].
  destruct (action_of P) as [[| | | | | |fn]|]; try discriminate.
  intros [= <-] _. cbn [calls inst].
  eexists; exists fn, (children_of P).
  split; [reflexivity|]. split; [reflexivity|].
  split; [now rewrite nth_error_app2, Nat.sub_diag by auto|].
  split; [reflexivity|]. split; [reflexivity|].
  split; [unfold children_of; now intros [-> | ->]|].
  split; [unfold children_of; intros v -> Hv; now destruct v|].
  intros Qs w'' Hp.
  lazymatch type of Hp with
  | passes Qs (mkWorld (Some ?f1) ?c1) = _ =>
      destruct (passes_keeps_or_supersedes Qs (mkWorld (Some f1) c1) w'' f1 eq_refl Hp)
        as (f'' & Hi'' & H)
  end.
  cbn [calls JSX] in H.
  exists f''. split; [exact Hi''|]. split.
  - intros Hc st.
    destruct H as [(_ & HJ) | (fb & p & _ & Hle & Hl)].
    + rewrite HJ. cbn [display]. split; [now intros -> | now intros v ->].
    + rewrite Hc in Hl. lia.
  - intros Hc st st' Hst.
    destruct H as [(Hc' & _) | (fb & p & HJ & Hle & _)]; [contradiction|].
    rewrite HJ. cbn [display]. rewrite (Hst p); [reflexivity|].
    rewrite length_app in Hle. cbn [List.length] in Hle. lia.
Qed.



(** C7, amended: between two render cycles a change is recorded exactly
    when, at some position both input lists have, the two values differ by
    [Object.is]; positions that only one list has are not compared.  So a
    composite value that is allocated anew with the same contents counts as
    a change: the key advances and the producer is invoked again. *)
Theorem change_is_positional_and_shallow
    (P0 P : object) (w0 w : world)
    (i r r' fn : nat) (fields : list (string * value)) :
  passes [P0; P0] w0 = Committed w ->
  nth_error (Object_values (rest P0)) i = Some (VObj r fields) ->
  nth_error (Object_values (rest P)) i = Some (VObj r' fields) ->
  r' <> r ->
  action_of P = Some (VFun fn) ->
  (forall next before,
      effectFires next (Some before) = true <->
      exists j x y, nth_error next j = Some x /\ nth_error before j = Some y /\
                    Object_is x y = false) /\
  exists f f',
    inst w = Some f /\
    effectFires (Object_values (rest P)) (Hook.deps (hook f)) = true /\
    Hook.propsChangedKey (snd (Hook.usePropsChangedKey (Object_values (rest P)) (hook f))) =
    Hook.propsChangedKey (hook f) + 1 /\
    passes [P; P] w =
    Committed {| inst := Some f';
                 calls := calls w ++ [{| callee := fn; bag := rest P |}] |}.
Proof.
  intros Hc Hp Hn Hr Ha.
  destruct (cycle_settles P0 w0 w Hc) as (f & Hi & He & Hd).
  assert (Hf : effectFires (Object_values (rest P)) (Hook.deps (hook f)) = true).
  { rewrite Hd. apply effectFires_iff. exists i, (VObj r' fields), (VObj r fields).
    repeat split; auto. cbn. now apply Nat.eqb_neq. }
  split; [exact effectFires_iff|].
  assert (Hk : Hook.propsChangedKey
                 (snd (Hook.usePropsChangedKey (Object_values (rest P)) (hook f))) =
               Hook.propsChangedKey (hook f) + 1)
    by now rewrite key_step, Hf.
  exists f. eexists. split; [exact Hi|]. split; [exact Hf|]. split; [exact Hk|].
  cbn [passes]. rewrite (Action_steady P w f Hi He). cbn [snd].
  erewrite Action_advance; [| reflexivity | cbn [effectDeps hook]; lia | exact Ha].
  cbn [snd calls]. reflexivity.
Qed.

(** C9: after a render cycle, renders that bring another producer reference
    with the same input values invoke nothing and leave the displayed
    content as it is; the producer that is invoked after the next change of
    the inputs is the one held by the render pass that reads the advanced
    key. *)
Theorem producer_change_alone_is_ignored
    (P : object) (Qs : list object) (w0 w : world) :
  passes [P; P] w0 = Committed w ->
  Forall (fun Q => same_inputs (Object_values (rest Q)) (Object_values (rest P))) Qs ->
  exists f f1,
    inst w = Some f /\
    passes Qs w = Committed {| inst := Some f1; calls := calls w |} /\
    JSX f1 = JSX f /\
    Hook.propsChangedKey (hook f1) = Hook.propsChangedKey (hook f) /\
    forall P2 P3 fn3,
      effectFires (Object_values (rest P2)) (Hook.deps (hook f1)) = true ->
      action_of P3 = Some (VFun fn3) ->
      exists f2 f3,
        snd (Action P2 {| inst := Some f1; calls := calls w |}) =
        Committed {| inst := Some f2; calls := calls w |} /\
        JSX f2 = JSX f /\
        snd (Action P3 {| inst := Some f2; calls := calls w |}) =
        Committed {| inst := Some f3;
                     calls := calls w ++ [{| callee := fn3; bag := rest P3 |}] |}.
Proof.
  intros Hc HQs.
  destruct (cycle_settles P w0 w Hc) as (f & Hi & He & Hd).
  destruct (passes_steady Qs w f _ Hi He Hd HQs)
    as (f1 & Hp & HJ & HK & HE & _).
  exists f, f1. repeat split; auto.
  intros P2 P3 fn3 Hf Ha.
  assert (He1 : effectDeps f1 = Hook.propsChangedKey (hook f1)) by congruence.
  rewrite (Action_steady P2 {| inst := Some f1; calls := calls w |} f1 eq_refl He1).
  cbn [snd]. eexists; eexists. split; [reflexivity|]. split; [exact HJ|].
  erewrite Action_advance; [reflexivity | reflexivity | | exact Ha].
  cbn [effectDeps hook]. rewrite key_step, Hf. lia.
Qed.

(** C10: the Tracker sees the values of the props, not their names: when
    the values of two consecutive renders agree position by position, the
    second render records no change and invokes nothing, whatever the props
    are called in either render. *)
Theorem prop_names_are_invisible (P1 P2 : object) (w0 w : world) :
  passes [P1; P1] w0 = Committed w ->
  same_inputs (map snd (rest P2)) (map snd (rest P1)) ->
  exists f f',
    inst w = Some f /\
    effectFires (Object_values (rest P2)) (Hook.deps (hook f)) = false /\
    snd (Action P2 w) = Committed {| inst := Some f'; calls := calls w |} /\
    Hook.propsChangedKey (hook f') = Hook.propsChangedKey (hook f) /\
    JSX f' = JSX f.
Proof.
  intros Hc Hs.
  destruct (cycle_settles P1 w0 w Hc) as (f & Hi & He & Hd).
  assert (Hf : effectFires (Object_values (rest P2)) (Hook.deps (hook f)) = false).
  { rewrite Hd. unfold effectFires, Object_values.
    now rewrite (same_inputs_equal _ _ Hs). }
  exists f. eexists. split; [exact Hi|]. split; [exact Hf|].
  rewrite (Action_steady P2 w f Hi He). cbn [snd].
  split; [reflexivity|]. cbn [hook JSX].
  rewrite key_step, Hf. split; [lia | reflexivity].
Qed.

(** ** Counting the invocations of a whole run *)

(** From the first render on, the producer has been invoked once for the
    mount and once for every later key value a render has read. *)
Lemma invocations_of_a_run (Ps : list object) (w : world) (f : fiber) :
  passes Ps unmounted = Committed w ->
  inst w = Some f ->
  Z.of_nat (List.length (calls w)) = effectDeps f + 1.
Proof.
  intros Hp Hi.
  assert (Hc : counted w) by exact (passes_counted Ps unmounted w eq_refl Hp).
  unfold counted in Hc. rewrite Hi in Hc. tauto.
Qed.

(** The documented caller: [loading...], then [hello roggc]; after the click,
    the wrapper of a third invocation, made with [userId = 2]. *)
Example scenario_B :
  passes [client1 1; client1 1; client1 2; client1 2] unmounted =
  Committed
    {| inst := Some {| JSX := Suspense (Fragment "loading...") 2;
                       hook := {| Hook.propsChangedKey := 2; Hook.deps := Some [VNum 2] |};
                       effectDeps := 2 |};
       calls := calls mounted1 ++ [{| callee := 7; bag := [("userId", VNum 2)] |}] |}.
Proof. reflexivity. Qed.

(** * Further properties of the code *)

(** ** The destructuring of the props *)

Lemma get_rest_other (P : object) (k : string) :
  k <> "action" -> k <> "children" -> get k (rest P) = get k P.
Proof.
  intros Ha Hc. induction P as [|[k' v] P IH]; [reflexivity|].
  unfold rest in *. cbn [filter fst get].
  destruct (String.eqb_spec k' "action") as [E|E]; cbn [negb andb].
  - subst k'. destruct (String.eqb_spec "action" k); [congruence | exact IH].
  - destruct (String.eqb_spec k' "children") as [E'|E']; cbn [negb].
    + subst k'. destruct (String.eqb_spec "children" k); [congruence | exact IH].
    + cbn [get]. now rewrite IH.
Qed.

Lemma get_rest_excluded (P : object) (k : string) :
  k = "action" \/ k = "children" -> get k (rest P) = None.
Proof.
  intros Hk. induction P as [|[k' v] P IH]; [reflexivity|].
  unfold rest in *. cbn [filter fst].
  destruct (String.eqb_spec k' "action") as [E|E]; cbn [negb andb]; [exact IH|].
  destruct (String.eqb_spec k' "children") as [E'|E']; cbn [negb]; [exact IH|].
  cbn [get]. destruct (String.eqb_spec k' k) as [->|_]; [|exact IH].
  destruct Hk; congruence.
Qed.

(** X1: reading a property of the object handed to the producer gives what
    the caller passed under that name, except for [action] and [children],
    which the producer never finds there. *)
Theorem producer_sees_every_other_prop (P : object) (k : string) :
  get k (rest P) =
  if String.eqb k "action" || String.eqb k "children" then None else get k P.
Proof.
  destruct (String.eqb_spec k "action") as [E|E]; cbn [orb].
  - apply get_rest_excluded. now left.
  - destruct (String.eqb_spec k "children") as [E'|E'].
    + apply get_rest_excluded. now right.
    + now apply get_rest_other.
Qed.

(** ** Errors of a render pass *)

(** X2: a render pass whose effect runs (first pass of the instance, or a
    key the effect has not seen) throws when the [action] prop is not a
    function.  A pass of an instance that has caught up with its key calls
    neither [action] nor [children]: it does not throw and invokes nothing,
    whatever those props are. *)
Theorem bad_action_throws_when_the_effect_runs (P : object) (w : world) :
  ((forall fn, action_of P <> Some (VFun fn)) ->
   inst w = None \/
   (exists f, inst w = Some f /\ effectDeps f <> Hook.propsChangedKey (hook f)) ->
   snd (Action P w) = Threw) /\
  (forall f, inst w = Some f ->
             effectDeps f = Hook.propsChangedKey (hook f) ->
             exists f', snd (Action P w) =
                        Committed {| inst := Some f'; calls := calls w |} /\
                        JSX f' = JSX f).
Proof.
  split.
  - intros Hn Hr. unfold Action.
    destruct (inst w) as [f|].
    + destruct Hr as [Hr | (f0 & [= <-] & Hr)]; [discriminate|].
      cbn [Hook.usePropsChangedKey snd]. rewrite effectFires_key.
      destruct (Z.eqb_spec (Hook.propsChangedKey (hook f)) (effectDeps f)) as [E|E];
        [congruence|]. cbn [negb].
      destruct (action_of P) as [[| | | | | |fn]|]; try reflexivity.
      now destruct (Hn fn).
    + destruct (useState_initial P); [|reflexivity].
      cbn [Hook.usePropsChangedKey snd effectFires].
      destruct (action_of P) as [[| | | | | |fn]|]; try reflexivity.
      now destruct (Hn fn).
  - intros f Hi He. rewrite (Action_steady P w f Hi He). cbn [snd].
    eexists. split; reflexivity.
Qed.

(** ** The first cycle of an instance *)






(** ** Which invocation is displayed *)

Lemma Action_wraps_latest (P : object) (w w' : world) :
  wraps_latest w -> snd (Action P w) = Committed w' -> wraps_latest w'.
Proof.
  unfold wraps_latest, Action.
  destruct (inst w) as [f|];
    [| destruct (useState_initial P) as [jsx0|]; [|discriminate] ];
    cbn [Hook.usePropsChangedKey snd].
  - intros Hw. destruct (effectFires [VNum _] _).
    + destruct (action_of P) as [[]|]; try discriminate.
      intros [= <-]. cbn [inst calls JSX].
      eexists; eexists. split; [reflexivity|].
      rewrite length_app. cbn [List.length]. lia.
    + intros [= <-]. exact Hw.
  - intros _. cbn [effectFires].
    destruct (action_of P) as [[]|]; try discriminate.
    intros [= <-]. cbn [inst calls JSX].
    eexists; eexists. split; [reflexivity|].
    rewrite length_app. cbn [List.length]. lia.
Qed.

Lemma passes_wraps_latest (Ps : list object) (w w' : world) :
  wraps_latest w -> passes Ps w = Committed w' -> wraps_latest w'.
Proof.
  revert w; induction Ps as [|P Ps IH]; intros w Hw; cbn [passes].
  - now intros [= <-].
  - destruct (snd (Action P w)) as [w1|] eqn:E; [|discriminate].
    apply IH. eapply Action_wraps_latest; eassumption.
Qed.

Lemma passes_mounted (Ps : list object) (w w' : world) :
  Ps <> [] \/ inst w <> None -> passes Ps w = Committed w' -> inst w' <> None.
Proof.
  revert w; induction Ps as [|P Ps IH]; intros w Hm; cbn [passes].
  - intros [= <-]. destruct Hm; congruence.
  - destruct (snd (Action P w)) as [w1|] eqn:E; [|discriminate].
    apply IH. right.
    destruct (Action_commits _ _ _ E) as (f & Hi & _). congruence.
Qed.

(** X6: at the end of every run of render passes of one instance, the
    content it holds is the suspension wrapper of the most recent producer
    invocation: what is displayed depends on the settlement of that
    invocation alone, and the result of a superseded invocation is never
    shown. *)
Theorem displayed_wrapper_is_the_latest (P : object) (Ps : list object) (w : world) :
  passes (P :: Ps) unmounted = Committed w ->
  exists f fb p,
    inst w = Some f /\
    JSX f = Suspense fb p /\
    List.length (calls w) = S p /\
    forall st st', st p = st' p -> display st (JSX f) = display st' (JSX f).
Proof.
  intros Hp.
  assert (Hw : wraps_latest w)
    by exact (passes_wraps_latest (P :: Ps) unmounted w I Hp).
  assert (Hm : inst w <> None).
  { apply (passes_mounted (P :: Ps) unmounted w); [left; discriminate | exact Hp]. }
  unfold wraps_latest in Hw. destruct (inst w) as [f|]; [|congruence].
  destruct Hw as (fb & p & HJ & Hl).
  exists f, fb, p. repeat split; auto.
  intros st st' Hst. rewrite HJ. cbn [display]. now rewrite Hst.
Qed.

(** ** React's re-rendering comes to rest *)

Lemma schedules_settled (P : object) (w : world) (f : fiber) :
  inst w = Some f ->
  effectDeps f = Hook.propsChangedKey (hook f) ->
  Hook.deps (hook f) = Some (Object_values (rest P)) ->
  schedules P w = false /\ snd (Action P w) = Committed w.
Proof.
  intros Hi He Hd. split.
  - unfold schedules. rewrite Hi, Hd, effectFires_key, He, Z.eqb_refl.
    cbn [effectFires]. now rewrite areHookInputsEqual_refl.
  - rewrite (Action_steady P w f Hi He). cbn [snd].
    unfold Hook.usePropsChangedKey. cbn [snd]. rewrite Hd. cbn [effectFires].
    rewrite areHookInputsEqual_refl. cbn [negb].
    destruct w as [i c], f as [j [k d] e]; cbn in *. subst. reflexivity.
Qed.

Lemma unscheduled_pass_settles (P : object) (w w1 : world) :
  snd (Action P w) = Committed w1 ->
  schedules P w = false ->
  schedules P w1 = false /\ snd (Action P w1) = Committed w1.
Proof.
  intros E Hs.
  destruct (Action_commits _ _ _ E) as (f1 & Hi1 & Hh1 & He1).
  apply (schedules_settled P w1 f1 Hi1).
  - rewrite He1, Hh1, key_step.
    unfold schedules in Hs. apply orb_false_iff in Hs. destruct Hs as (Hs & _).
    rewrite Hs. lia.
  - rewrite Hh1. apply deps_step.
Qed.

(** X7: the state updates made inside the effects do not feed a render
    loop.  A render with props [P] is followed by at most two passes that
    React schedules; after them no effect runs any more, a further pass
    changes nothing, and the state reached is the one of two passes. *)
Theorem render_comes_to_rest (n : nat) (P : object) (w : world) :
  render (3 + n) P w = Some (passes [P; P] w) /\
  forall w', passes [P; P] w = Committed w' ->
             schedules P w' = false /\ snd (Action P w') = Committed w'.
Proof.
  split.
  - cbn [passes Nat.add render].
    destruct (snd (Action P w)) as [w1|] eqn:E1; [|reflexivity].
    destruct (schedules P w) eqn:S1.
    + destruct (snd (Action P w1)) as [w2|] eqn:E2; [|reflexivity].
      destruct (schedules P w1) eqn:S2; [|reflexivity].
      assert (Hc : passes [P; P] w = Committed w2)
        by (cbn [passes]; now rewrite E1, E2).
      destruct (cycle_settles P w w2 Hc) as (f2 & Hi & He & Hd).
      destruct (schedules_settled P w2 f2 Hi He Hd) as (S3 & E3).
      destruct n; cbn [render]; now rewrite E3, S3.
    + destruct (unscheduled_pass_settles P w w1 E1 S1) as (_ & E2).
      now rewrite E2.
  - intros w' Hc.
    destruct (cycle_settles P w w' Hc) as (f & Hi & He & Hd).
    exact (schedules_settled P w' f Hi He Hd).
Qed.

(** ** More on what the hook compares *)

Lemma observed_changes_bound (prev : list value) (rs : list (list value)) :
  0 <= observed_changes prev rs <= Z.of_nat (List.length rs).
Proof.
  revert prev; induction rs as [|a rs IH]; intros prev;
    cbn [observed_changes List.length]; [lia|].
  specialize (IH a). destruct (effectFires a (Some prev)); lia.
Qed.

(** X8: after its first evaluation the key is one more than the number of
    evaluations that saw a change, so it lies between 1 and the number of
    renders. *)
Theorem key_is_one_plus_changes (args : list value) (rs : list (list value)) :
  Hook.propsChangedKey (Hook.evals (args :: rs) Hook.init) = 1 + observed_changes args rs /\
  1 <= Hook.propsChangedKey (Hook.evals (args :: rs) Hook.init)
    <= Z.of_nat (List.length (args :: rs)).
Proof.
  cbn [Hook.evals].
  rewrite (key_counts_changes rs _ args (deps_step _ _)), key_step.
  cbn [Hook.init Hook.deps Hook.propsChangedKey effectFires List.length].
  pose proof (observed_changes_bound args rs). lia.
Qed.

Lemma areHookInputsEqual_app (pre a b : list value) :
  areHookInputsEqual (pre ++ a) (pre ++ b) = areHookInputsEqual a b.
Proof.
  induction pre as [|x pre IH]; [reflexivity|].
  cbn [app areHookInputsEqual]. now rewrite Object_is_refl.
Qed.

Lemma areHookInputsEqual_longer (prev extra : list value) :
  areHookInputsEqual (prev ++ extra) prev = true /\
  areHookInputsEqual prev (prev ++ extra) = true.
Proof.
  induction prev as [|x prev IH]; cbn [app areHookInputsEqual].
  - now destruct extra.
  - now rewrite Object_is_refl.
Qed.

(** X9: props added after the existing ones, and props dropped from the
    end, go unnoticed: with inputs [prev], then [prev] followed by [extra],
    then [prev] again, the key is the one the first of the three renders
    left. *)
Theorem trailing_inputs_never_advance_the_key
    (prev extra : list value) (h : Hook.state) :
  Hook.propsChangedKey (Hook.evals [prev; prev ++ extra; prev] h) =
  Hook.propsChangedKey (Hook.evals [prev] h).
Proof.
  cbn [Hook.evals]. rewrite !key_step, !deps_step. cbn [effectFires].
  destruct (areHookInputsEqual_longer prev extra) as (-> & ->).
  cbn [negb]. lia.
Qed.

(** X10: an object changed in place is not a change: two renders that pass
    the same reference with other contents leave the key where it was. *)
Theorem mutation_in_place_is_invisible
    (pre post : list value) (r : nat) (fields fields' : list (string * value))
    (h : Hook.state) :
  Hook.propsChangedKey
    (Hook.evals [pre ++ VObj r fields :: post; pre ++ VObj r fields' :: post] h) =
  Hook.propsChangedKey (Hook.evals [pre ++ VObj r fields :: post] h).
Proof.
  cbn [Hook.evals]. rewrite key_step, deps_step. cbn [effectFires].
  rewrite areHookInputsEqual_app. cbn [areHookInputsEqual Object_is].
  rewrite Nat.eqb_refl, areHookInputsEqual_refl. cbn [negb]. lia.
Qed.

(** X11: the comparison is by position: the same values with two of them,
    which [Object.is] tells apart, in exchanged places are a change. *)
Theorem exchanged_inputs_advance_the_key
    (pre post : list value) (x y : value) (h : Hook.state) :
  Object_is x y = false ->
  Hook.propsChangedKey
    (Hook.evals [pre ++ x :: y :: post; pre ++ y :: x :: post] h) =
  Hook.propsChangedKey (Hook.evals [pre ++ x :: y :: post] h) + 1.
Proof.
  intros Hxy. cbn [Hook.evals]. rewrite (key_step (pre ++ y :: x :: post)), deps_step.
  cbn [effectFires]. rewrite areHookInputsEqual_app. cbn [areHookInputsEqual].
  now rewrite Object_is_sym, Hxy.
Qed.

Lemma exchanged_inputs_advance_the_key_witness :
  Hook.propsChangedKey
    (Hook.evals [[VStr "a"; VNum 1; VNum 2]; [VStr "a"; VNum 2; VNum 1]] Hook.init) = 2.
Proof.
  exact (exchanged_inputs_advance_the_key [VStr "a"] [] (VNum 1) (VNum 2)
           Hook.init eq_refl).
Defined.

(** ** The documented component against [src/app/action.js] *)

Lemma action_value_fun (P : object) (fn : nat) :
  Doc.action_value P = VFun fn <-> action_of P = Some (VFun fn).
Proof.
  unfold Doc.action_value. destruct (action_of P) as [v|].
  - split; congruence.
  - split; discriminate.
Qed.

Lemma effectFires_key_action (k d : Z) (a s : value) :
  effectFires [VNum k; a] (Some [VNum d; s]) = negb ((k =? d) && Object_is a s).
Proof.
  unfold effectFires. cbn [areHookInputsEqual Object_is].
  destruct (k =? d); [|reflexivity]. now destruct (Object_is a s).
Qed.

(** X12: the two texts of the component part ways when a render brings
    another producer with the same inputs: the component as documented
    (dependencies [[propsChangedKey, action]]) invokes the new producer at
    once and displays its wrapper, the component of [src/app/action.js]
    invokes nothing and keeps its content. *)
Theorem documented_component_follows_the_producer
    (P : object) (wd : Doc.world) (fd : Doc.fiber) (fn : nat) :
  Doc.inst wd = Some fd ->
  fst (Doc.effectDeps fd) = Hook.propsChangedKey (Doc.hook fd) ->
  Object_is (VFun fn) (snd (Doc.effectDeps fd)) = false ->
  action_of P = Some (VFun fn) ->
  (exists fd',
      snd (Doc.Action P wd) =
      Doc.Committed {| Doc.inst := Some fd';
                       Doc.calls := Doc.calls wd ++ [{| callee := fn; bag := rest P |}] |} /\
      Doc.JSX fd' = Suspense (children_of P) (List.length (Doc.calls wd))) /\
  (exists f',
      snd (Action P (forget wd)) =
      Committed {| inst := Some f'; calls := Doc.calls wd |} /\
      JSX f' = Doc.JSX fd).
Proof.
  intros Hi He Hn Ha. split.
  - unfold Doc.Action. rewrite Hi.
    rewrite (proj2 (action_value_fun P fn) Ha).
    cbn [Hook.usePropsChangedKey snd].
    rewrite effectFires_key_action, Hn, andb_false_r. cbn [negb].
    eexists. split; reflexivity.
  - erewrite Action_steady; [| unfold forget; rewrite Hi; reflexivity | cbn; congruence].
    cbn [snd forget calls]. eexists. split; reflexivity.
Qed.

Lemma Doc_Action_agrees (P : object) (wd : Doc.world) (a : value) :
  holds_producer a wd ->
  Object_is (Doc.action_value P) a = true ->
  fst (Doc.Action P wd) = fst (Action P (forget wd)) /\
  forget_outcome (snd (Doc.Action P wd)) = snd (Action P (forget wd)) /\
  forall wd', snd (Doc.Action P wd) = Doc.Committed wd' -> holds_producer a wd'.
Proof.
  unfold holds_producer, Doc.Action, Action, forget.
  cbn [inst calls Hook.usePropsChangedKey fst snd].
  intros Hh Ha. destruct (Doc.inst wd) as [fd|].
  - cbn [JSX hook effectDeps].
    assert (Hs : Object_is (Doc.action_value P) (snd (Doc.effectDeps fd)) = true).
    { eapply Object_is_trans; [exact Ha|]. now rewrite Object_is_sym. }
    rewrite effectFires_key_action, effectFires_key, Hs, andb_true_r.
    destruct (negb _).
    + destruct (Doc.action_value P) as [| | | | | |fn] eqn:Ev.
      1-6: (unfold Doc.action_value in Ev;
            destruct (action_of P) as [[]|]; try discriminate;
            repeat split; intros wd'; discriminate).
      rewrite (proj1 (action_value_fun P fn) Ev). cbn [forget_outcome forget].
      repeat split. intros wd' [= <-]. cbn. exact Ha.
    + cbn [forget_outcome forget]. repeat split.
      intros wd' [= <-]. cbn. exact Ha.
  - destruct (useState_initial P) as [jsx0|];
      [|cbn; repeat split; intros wd'; discriminate].
    cbn [effectFires fst snd].
    destruct (Doc.action_value P) as [| | | | | |fn] eqn:Ev.
    1-6: (unfold Doc.action_value in Ev;
          destruct (action_of P) as [[]|]; try discriminate;
          repeat split; intros wd'; discriminate).
    rewrite (proj1 (action_value_fun P fn) Ev). cbn [forget_outcome forget].
    repeat split. intros wd' [= <-]. cbn. exact Ha.
Qed.

Lemma Doc_passes_agree (Ps : list object) (wd : Doc.world) (a : value) :
  holds_producer a wd ->
  Forall (fun P => Object_is (Doc.action_value P) a = true) Ps ->
  forget_outcome (Doc.passes Ps wd) = passes Ps (forget wd).
Proof.
  revert wd; induction Ps as [|P Ps IH]; intros wd Hh HPs;
    cbn [Doc.passes passes]; [reflexivity|].
  inversion HPs as [|P' Ps' HP HPs']; subst.
  destruct (Doc_Action_agrees P wd a Hh HP) as (_ & Ho & Hk).
  rewrite <- Ho.
  destruct (snd (Doc.Action P wd)) as [wd'|]; cbn [forget_outcome]; [|reflexivity].
  apply IH; auto.
Qed.

(** X13: as long as every render brings the same producer reference, the
    component as documented and the component of [src/app/action.js] cannot
    be told apart: every run of render passes from the first render on
    makes the same invocations and reaches the same content and key, or
    throws in both. *)
Theorem documented_component_agrees_under_a_stable_producer
    (Ps : list object) (a : value) :
  Forall (fun P => Object_is (Doc.action_value P) a = true) Ps ->
  forget_outcome (Doc.passes Ps Doc.unmounted) = passes Ps unmounted.
Proof.
  intros HPs. exact (Doc_passes_agree Ps Doc.unmounted a I HPs).
Qed.

(** ** The documented server action *)

(** X14: [greeting] settles for the two known users only, and only when
    [userId] is the number itself: it is fulfilled with the greeting of
    [roggc] exactly for [userId = 1] and of [roger] exactly for
    [userId = 2]; for every other [userId] (unknown number, the string
    ["1"], none at all) its promise stays pending for ever.  It is never
    fulfilled with the error component. *)
Theorem greeting_settles_for_known_users_only (props : object) :
  (Actions.greeting props = Some (Actions.GreetingEl "roggc") <->
   get "userId" props = Some (VNum 1)) /\
  (Actions.greeting props = Some (Actions.GreetingEl "roger") <->
   get "userId" props = Some (VNum 2)) /\
  (Actions.greeting props = None <->
   get "userId" props <> Some (VNum 1) /\ get "userId" props <> Some (VNum 2)) /\
  (forall message, Actions.greeting props <> Some (Actions.MyErrorEl message)).
Proof.
  unfold Actions.greeting, Actions.username_promise, Actions.users.
  cbn [find Actions.id Actions.username].
  destruct (get "userId" props) as [[| | |n| | |]|]; cbn [Actions.strict_equals].
  4: { destruct (Z.eqb_spec 1 n) as [<-|H1]; [|destruct (Z.eqb_spec 2 n) as [<-|H2]].
       - repeat split; try discriminate; try reflexivity; intros []; congruence.
       - repeat split; try discriminate; try reflexivity; intros []; congruence.
       - repeat split; try discriminate; try congruence. }
  all: repeat split; try discriminate; try congruence.
Qed.

(** ** The documented caller *)

Lemma Client1_clicks_settled (n : nat) (s : Client1.state) :
  Client1.userId s = 2 -> Client1.clicks n s = Some s.
Proof.
  intros Hs. induction n as [|n IH]; [reflexivity|].
  cbn [Client1.clicks]. unfold Client1.onClick. now rewrite Hs.
Qed.

(** X15: the documented page.  [Client1] mounts showing [loading...] around
    an invocation that settles to [hello roggc]; the first click on the
    button makes exactly one more invocation, with [userId = 2], whose
    wrapper shows [loading...] and settles to [hello roger]; every further
    click changes nothing and invokes nothing. *)
Theorem Client1_greets_roggc_then_roger (n : nat) :
  exists s0 s f0 f c0 c,
    Client1.mount = Some s0 /\
    inst (Client1.child s0) = Some f0 /\
    JSX f0 = Suspense (Fragment "loading...") 1 /\
    nth_error (calls (Client1.child s0)) 1 = Some c0 /\
    option_map Actions.paint (Actions.greeting (bag c0)) = Some (Fragment "hello roggc") /\
    Client1.clicks (S n) s0 = Some s /\
    Client1.userId s = 2 /\
    calls (Client1.child s) = calls (Client1.child s0) ++ [c] /\
    inst (Client1.child s) = Some f /\
    JSX f = Suspense (Fragment "loading...") 2 /\
    nth_error (calls (Client1.child s)) 2 = Some c /\
    option_map Actions.paint (Actions.greeting (bag c)) = Some (Fragment "hello roger").
Proof.
  eexists; eexists; eexists; eexists; eexists; eexists.
  split; [reflexivity|]. cbn [Client1.child inst JSX calls].
  split; [reflexivity|]. split; [reflexivity|]. split; [reflexivity|].
  split; [reflexivity|].
  split.
  { cbn [Client1.clicks]. unfold Client1.onClick at 1.
    cbn -[Client1.clicks]. apply Client1_clicks_settled. reflexivity. }
  cbn [Client1.userId Client1.child inst JSX calls].
  repeat split.
Qed.

End Properties.

(** * The theorems at work on the documented caller

    None of the functions passed below is called without arguments. *)

#[local] Existing Instance no_initializers.

Lemma one_invocation_per_advance_witness :
  exists f',
    snd (Action (client1 2)
           {| inst := Some {| JSX := Suspense (Fragment "loading...") 1;
                              hook := {| Hook.propsChangedKey := 2;
                                         Hook.deps := Some [VNum 2] |};
                              effectDeps := 1 |};
              calls := calls mounted1 |}) =
    Committed {| inst := Some f';
                 calls := calls mounted1 ++
                          [{| callee := 7; bag := [("userId", VNum 2)] |}] |}.
Proof.
  destruct (one_invocation_per_advance (client1 2)
              {| inst := Some {| JSX := Suspense (Fragment "loading...") 1;
                                 hook := {| Hook.propsChangedKey := 2;
                                            Hook.deps := Some [VNum 2] |};
                                 effectDeps := 1 |};
                 calls := calls mounted1 |}
              _ 7%nat eq_refl eq_refl eq_refl) as (f' & H & _).
  exists f'. exact H.
Defined.


Lemma unchanged_rerender_makes_no_invocation_witness :
  exists f',
    passes [client1 1; client1 1; client1 1] mounted1 =
    Committed {| inst := Some f'; calls := calls mounted1 |}.
Proof.
  destruct (unchanged_rerender_makes_no_invocation
              (client1 1) [client1 1; client1 1; client1 1] unmounted mounted1
              eq_refl) as (f & f' & _ & H & _).
  - repeat constructor.
  - exists f'. exact H.
Defined.


Lemma change_is_positional_and_shallow_witness :
  let fresh (r : nat) : object :=
    [("action", greeting); ("filter", VObj r [("id", VNum 1)])] in
  exists w f',
    passes [fresh 1%nat; fresh 1%nat] unmounted = Committed w /\
    passes [fresh 2%nat; fresh 2%nat] w =
    Committed {| inst := Some f';
                 calls := calls w ++ [{| callee := 7; bag := rest (fresh 2%nat) |}] |}.
Proof.
  intros fresh.
  destruct (change_is_positional_and_shallow (fresh 1%nat) (fresh 2%nat) unmounted
              _ 0 1 2 7 [("id", VNum 1)] eq_refl eq_refl eq_refl)
    as (_ & f & f' & _ & _ & _ & H).
  - discriminate.
  - reflexivity.
  - eexists; exists f'. split; [reflexivity | exact H].
Defined.


Lemma producer_change_alone_is_ignored_witness :
  exists f1,
    passes [[("action", VFun 8); ("userId", VNum 1)]] mounted1 =
    Committed {| inst := Some f1; calls := calls mounted1 |} /\
    JSX f1 = Suspense (Fragment "loading...") 1.
Proof.
  destruct (producer_change_alone_is_ignored (client1 1)
              [[("action", VFun 8); ("userId", VNum 1)]] unmounted mounted1
              eq_refl) as (f & f1 & Hi & H & HJ & _).
  - repeat constructor.
  - exists f1. split; [exact H|]. rewrite HJ.
    injection Hi as <-. reflexivity.
Defined.


Lemma prop_names_are_invisible_witness :
  exists f',
    snd (Action [("action", greeting); ("id", VNum 1)] mounted1) =
    Committed {| inst := Some f'; calls := calls mounted1 |}.
Proof.
  destruct (prop_names_are_invisible (client1 1)
              [("action", greeting); ("id", VNum 1)] unmounted mounted1
              eq_refl) as (f & f' & _ & _ & H & _).
  - repeat constructor.
  - exists f'. exact H.
Defined.


Lemma displayed_wrapper_is_the_latest_witness :
  exists fb p,
    Suspense (Fragment "loading...") 2 = Suspense fb p /\
    List.length (calls mounted1 ++ [{| callee := 7; bag := [("userId", VNum 2)] |}]) = S p.
Proof.
  destruct (displayed_wrapper_is_the_latest (client1 1)
              [client1 1; client1 2; client1 2]
              {| inst := Some {| JSX := Suspense (Fragment "loading...") 2;
                                 hook := {| Hook.propsChangedKey := 2;
                                            Hook.deps := Some [VNum 2] |};
                                 effectDeps := 2 |};
                 calls := calls mounted1 ++
                          [{| callee := 7; bag := [("userId", VNum 2)] |}] |}
              eq_refl)
    as (f & fb & p & Hi & HJ & Hl & _).
  cbn [inst calls] in Hi, Hl. injection Hi as <-. cbn [JSX] in HJ.
  exists fb, p. split; [exact HJ | exact Hl].
Defined.


Lemma render_comes_to_rest_witness :
  render 3 (client1 1) unmounted = Some (Committed mounted1) /\
  schedules (client1 1) mounted1 = false.
Proof.
  destruct (render_comes_to_rest 0 (client1 1) unmounted) as (H1 & H2).
  split; [exact H1 | exact (proj1 (H2 mounted1 eq_refl))].
Defined.


Lemma documented_component_follows_the_producer_witness :
  let wd := {| Doc.inst := Some {| Doc.JSX := Suspense (Fragment "loading...") 1;
                                   Doc.hook := {| Hook.propsChangedKey := 1;
                                                  Hook.deps := Some [VNum 1] |};
                                   Doc.effectDeps := (1, greeting) |};
               Doc.calls := calls mounted1 |} in
  let P := [("action", VFun 8); ("userId", VNum 1)] in
  (exists fd', snd (Doc.Action P wd) =
               Doc.Committed {| Doc.inst := Some fd';
                                Doc.calls := calls mounted1 ++
                                             [{| callee := 8; bag := [("userId", VNum 1)] |}] |}) /\
  (exists f', snd (Action P mounted1) = Committed {| inst := Some f'; calls := calls mounted1 |}).
Proof.
  intros wd P.
  destruct (documented_component_follows_the_producer P wd _ 8 eq_refl eq_refl eq_refl eq_refl)
    as ((fd' & Hd & _) & (f' & Hf & _)).
  split; [exists fd'; exact Hd | exists f'; exact Hf].
Defined.


Lemma documented_component_agrees_under_a_stable_producer_witness :
  forget_outcome (Doc.passes [client1 1; client1 1; client1 2; client1 2] Doc.unmounted) =
  passes [client1 1; client1 1; client1 2; client1 2] unmounted.
Proof.
  apply (documented_component_agrees_under_a_stable_producer
           [client1 1; client1 1; client1 2; client1 2] greeting).
  repeat constructor.
Defined.


Lemma bad_action_throws_when_the_effect_runs_witness :
  snd (Action [("action", VStr "greeting"); ("userId", VNum 1)] unmounted) = Threw /\
  exists f', snd (Action [("action", VStr "greeting"); ("userId", VNum 1)] mounted1) =
             Committed {| inst := Some f'; calls := calls mounted1 |}.
Proof.
  destruct (bad_action_throws_when_the_effect_runs
              [("action", VStr "greeting"); ("userId", VNum 1)] unmounted) as (H1 & _).
  destruct (bad_action_throws_when_the_effect_runs
              [("action", VStr "greeting"); ("userId", VNum 1)] mounted1) as (_ & H2).
  split.
  - apply H1; [discriminate | now left].
  - destruct (H2 _ eq_refl eq_refl) as (f' & H & _). exists f'. exact H.
Defined.



(** C5, as stated, fails for the first of the two invocations every mount
    makes: its wrapper is replaced by the pass that follows, so once it has
    settled, and the later one has not, the instance still shows the
    fallback, and goes on doing so in later renders. *)
Lemma first_invocation_of_a_mount_is_never_displayed :
  passes [client1 1; client1 1] unmounted = Committed mounted1 /\
  nth_error (calls mounted1) 0 = Some {| callee := 7; bag := [("userId", VNum 1)] |} /\
  exists f,
    passes [client1 1; client1 1; client1 1] unmounted =
    Committed {| inst := Some f; calls := calls mounted1 |} /\
    display (fun p => match p with
                      | O => Fulfilled (VStr "hello roggc")
                      | S _ => Pending
                      end) (JSX f) = Shows (Fragment "loading...").
Proof.
  split; [reflexivity|]. split; [reflexivity|].
  eexists. split; reflexivity.
Qed.

Lemma invocation_is_displayed_through_suspense_witness :
  exists f',
    inst mounted1 = Some f' /\
    display (fun _ => Pending) (JSX f') = Shows (Fragment "loading...") /\
    display (fun _ => Fulfilled (VStr "hello roggc")) (JSX f') =
    Shows (Given (VStr "hello roggc")).
Proof.
  destruct (invocation_is_displayed_through_suspense (client1 1)
              {| inst := Some {| JSX := Suspense (Fragment "loading...") 0;
                                 hook := {| Hook.propsChangedKey := 1;
                                            Hook.deps := Some [VNum 1] |};
                                 effectDeps := 0 |};
                 calls := [ {| callee := 7; bag := [("userId", VNum 1)] |} ] |}
              mounted1 eq_refl)
    as (f' & fn & fb & _ & _ & _ & Hi & HJ & Hfb & _ & Hlater).
  - discriminate.
  - destruct (Hlater [] mounted1 eq_refl) as (f'' & Hi'' & Hsame & _).
    exists f''. split; [exact Hi''|].
    rewrite <- (Hfb (or_introl eq_refl)).
    split.
    + exact (proj1 (Hsame eq_refl (fun _ => Pending)) eq_refl).
    + exact (proj2 (Hsame eq_refl (fun _ => Fulfilled (VStr "hello roggc"))) _ eq_refl).
Defined.

